(** * e_calculator: the posterior of [e], its grid sampler and its
      Metropolis-Hastings sampler

    A shallow embedding of [src/e_calculator/e_calculator.py] (class
    [CalculateE]) and the properties of it stated in the specification.

    Numbers.  The program computes on IEEE doubles through numpy.  The
    embedding idealises finite doubles as real numbers (no rounding, no
    overflow, no underflow) and keeps the three non-finite results that a
    numpy division can produce ([inf], [-inf], [nan]) as separate
    constructors, because the acceptance test of the sampler divides by a
    posterior value that can be zero.

    Randomness.  [np.random] is a process-wide generator.  It is modelled as a
    stream of unit variates (the values [random_sample()] returns, each in
    [0, 1)) together with the number of variates consumed so far.

    State and errors.  Methods of [CalculateE] assign attributes of [self],
    consume variates and raise.  They are functions from a [world] (the object
    and the generator) to a result and the world left behind, also when they
    raise. *)

From Stdlib Require Import Reals Lra Lia ZArith String Bool List Permutation.
From Equations Require Import Equations.
From Equations.Prop Require Import Logic.
Import ListNotations.

Open Scope R_scope.

(** ** Python values and exceptions *)

(** A Python number as the trial count can be given: an [int] or a [float]. *)
Inductive pynum : Type :=
| PyInt (z : Z)
| PyFloat (x : R).

Inductive exn : Type :=
| AssertionError (msg : string)
| AttributeError (attr : string)
| TypeError
| ValueError.

Inductive result (A : Type) : Type :=
| Ok (v : A)
| Raise (e : exn).
Arguments Ok {A} v.
Arguments Raise {A} e.

Definition Rltb (x y : R) : bool := if Rlt_dec x y then true else false.
Definition Rleb (x y : R) : bool := if Rle_dec x y then true else false.
Definition Reqb0 (x : R) : bool := if Req_dec_T x 0 then true else false.

Definition py_value (n : pynum) : R :=
  match n with
  | PyInt z => IZR z
  | PyFloat x => x
  end.

(** [n > 0] *)
Definition py_gt0 (n : pynum) : bool := Rltb 0 (py_value n).

(** [isinstance(n, int)] *)
Definition py_isinstance_int (n : pynum) : bool :=
  match n with
  | PyInt _ => true
  | PyFloat _ => false
  end.

(** Truth value of a number: zero is false. *)
Definition py_truthy (n : pynum) : bool :=
  match n with
  | PyInt z => negb (z =? 0)%Z
  | PyFloat x => negb (Reqb0 x)
  end.

(** [i <= n] for an int [i]. *)
Definition py_int_le (i : Z) (n : pynum) : bool := Rleb (IZR i) (py_value n).

(** The largest integer not above a number: how many values of the counter
    [trial_num = 1, 2, ...] satisfy [trial_num <= n]. *)
Definition py_floor (n : pynum) : Z :=
  match n with
  | PyInt z => z
  | PyFloat x => Int_part x
  end.

(** Truth value of a list-or-None attribute, as used by [x or y]. *)
Definition py_or {A : Type} (x : option (list A)) (y : list A) : list A :=
  match x with
  | None => y
  | Some [] => y
  | Some l => l
  end.

(** ** numpy *)

(** What a [np.float64] operation can return. *)
Inductive npfloat : Type :=
| Fin (x : R)
| PosInf
| NegInf
| NaN.

(** [x / y] on [np.float64]: a zero divisor gives a warning and a
    non-finite value, never an exception. *)
Definition np_true_divide (x y : R) : npfloat :=
  if Reqb0 y then
    if Rltb 0 x then PosInf else if Rltb x 0 then NegInf else NaN
  else Fin (x / y).

(** [x < y]: every comparison with [nan] is false. *)
Definition np_lt (x y : npfloat) : bool :=
  match x, y with
  | NaN, _ => false
  | _, NaN => false
  | Fin a, Fin b => Rltb a b
  | Fin _, PosInf => true
  | Fin _, NegInf => false
  | PosInf, _ => false
  | NegInf, NegInf => false
  | NegInf, _ => true
  end.

(** [x <= y] *)
Definition np_le (x y : npfloat) : bool :=
  match x, y with
  | NaN, _ => false
  | _, NaN => false
  | Fin a, Fin b => Rleb a b
  | Fin _, PosInf => true
  | Fin _, NegInf => false
  | PosInf, PosInf => true
  | PosInf, _ => false
  | NegInf, _ => true
  end.

(** The builtin [min(a, b)]: the first argument is kept unless the second
    compares strictly below it. *)
Definition py_min (a b : npfloat) : npfloat := if np_lt b a then b else a.

(** [np.product]: the product of the entries, 1 for an empty array. *)
Definition np_product (l : list R) : R := fold_left Rmult l 1.

(** [np.arange(0, num)] *)
Definition np_arange (num : nat) : list R := map INR (seq 0 num).

(** [y[-1] = v] on a non-empty array. *)
Definition set_last (y : list R) (v : R) : list R :=
  match y with
  | [] => []
  | _ :: _ => removelast y ++ [v]
  end.

(** [np.linspace(start, stop, num)] with the default [endpoint=True], after
    numpy's [function_base.linspace]: [div = num - 1], the grid is
    [arange(0, num) * step + start] with [step = (stop - start) / div], and
    the last entry is overwritten with [stop] when [num > 1].  With
    [div <= 0] the step is undefined and the array ([] or [[0]]) is scaled
    by [stop - start] instead. *)
Definition linspace_values (start stop : R) (num : Z) : list R :=
  let div := (num - 1)%Z in
  let delta := stop - start in
  let y := np_arange (Z.to_nat num) in
  let y :=
    if (0 <? div)%Z then map (fun i => i * (delta / IZR div)) y
    else map (fun i => i * delta) y in
  let y := map (fun v => v + start) y in
  if (1 <? num)%Z then set_last y stop else y.

Definition np_linspace (start stop : R) (num : pynum) : result (list R) :=
  match num with
  | PyFloat _ => Raise TypeError
  | PyInt n =>
      if (n <? 0)%Z then Raise ValueError else Ok (linspace_values start stop n)
  end.

(** The generator behind [np.random]. *)
Record RandomState : Type := mkRandomState {
  variates : nat -> R;
  consumed : nat
}.

Definition random_sample (g : RandomState) : R * RandomState :=
  (variates g (consumed g),
   {| variates := variates g; consumed := S (consumed g) |}).

(** [np.random.uniform(low, high)]: [low + (high - low) * random_sample()]. *)
Definition np_random_uniform (low high : R) (g : RandomState) : R * RandomState :=
  let (u, g') := random_sample g in (low + (high - low) * u, g').

(** ** class CalculateE *)

Record CalculateE : Type := mkCalculateE {
  nsamples : Z;
  ntrials : Z;
  ntrails : option pynum;
  data : list R;
  a_array : option (list R);
  posterior : option (list R);
  chain : option (list R)
}.

Record world : Type := mkWorld {
  self : CalculateE;
  np_random : RandomState
}.

(** Methods: state passing with exceptions; the world is returned in both
    cases. *)
Definition M (A : Type) : Type := world -> result A * world.

Definition ret {A : Type} (v : A) : M A := fun w => (Ok v, w).

Definition raise {A : Type} (e : exn) : M A := fun w => (Raise e, w).

Definition bind {A B : Type} (m : M A) (k : A -> M B) : M B :=
  fun w =>
    match m w with
    | (Ok v, w') => k v w'
    | (Raise e, w') => (Raise e, w')
    end.

Notation "x <- m ;; k" := (bind m (fun x => k))
  (at level 61, m at next level, right associativity).
Notation "m ;; k" := (bind m (fun _ => k))
  (at level 61, right associativity).

Definition lift {A : Type} (r : result A) : M A := fun w => (r, w).

Definition py_assert (b : bool) (msg : string) : M unit :=
  if b then ret tt else raise (AssertionError msg).

Definition get_self : M CalculateE := fun w => (Ok (self w), w).

Definition set_self (f : CalculateE -> CalculateE) : M unit :=
  fun w => (Ok tt, {| self := f (self w); np_random := np_random w |}).

(** Run a draw on the process-wide generator. *)
Definition draw {A : Type} (f : RandomState -> A * RandomState) : M A :=
  fun w =>
    let (v, g) := f (np_random w) in
    (Ok v, {| self := self w; np_random := g |}).

Definition set_ntrails (n : pynum) (s : CalculateE) : CalculateE :=
  {| nsamples := nsamples s; ntrials := ntrials s; ntrails := Some n;
     data := data s; a_array := a_array s; posterior := posterior s;
     chain := chain s |}.

Definition set_a_array (a : list R) (s : CalculateE) : CalculateE :=
  {| nsamples := nsamples s; ntrials := ntrials s; ntrails := ntrails s;
     data := data s; a_array := Some a; posterior := posterior s;
     chain := chain s |}.

Definition set_posterior (p : list R) (s : CalculateE) : CalculateE :=
  {| nsamples := nsamples s; ntrials := ntrials s; ntrails := ntrails s;
     data := data s; a_array := a_array s; posterior := Some p;
     chain := chain s |}.

Definition set_chain (c : option (list R)) (s : CalculateE) : CalculateE :=
  {| nsamples := nsamples s; ntrials := ntrials s; ntrails := ntrails s;
     data := data s; a_array := a_array s; posterior := posterior s;
     chain := c |}.

(** [self.ntrails]: the attribute exists only once a sampling method has
    assigned it ([__init__] assigns [ntrials]). *)
Definition get_ntrails : M pynum :=
  s <- get_self ;;
  match ntrails s with
  | Some n => ret n
  | None => raise (AttributeError "ntrails")
  end.

(** [calculate_posterior]: numpy evaluates the expression array-wise over
    [self.data] and multiplies the entries.  For [a >= 1] every intermediate
    value is a finite real, which is where the sampler calls it. *)
Definition calculate_posterior (s : CalculateE) (a : R) : R :=
  let Na := sqrt (ln a / (2 * PI)) in
  let squares := map (fun x => x ^ 2) (data s) in
  let exponents := map (fun y => y / 2) (map Ropp squares) in
  let powers := map (fun y => Rpower a y) exponents in
  np_product (map (fun p => Na * p) powers).

Definition normalization_msg : string :=
  "due to normalization of posterior, a must be greater than 1".

Definition ntrails_msg : string := "ntrails must be a positive integer".

Definition _check_inputs (a_min a_max : R) (ntrials : pynum) : M unit :=
  py_assert (Rltb 1 a_min) normalization_msg ;;
  py_assert (Rltb a_min a_max) EmptyString ;;
  py_assert (py_gt0 ntrials && py_isinstance_int ntrials) ntrails_msg.

(** The [if ntrials: ... else: ...] block shared by both sampling methods. *)
Definition default_ntrials (ntrials : pynum) : M pynum :=
  if py_truthy ntrials then set_self (set_ntrails ntrials) ;; ret ntrials
  else get_ntrails.

Definition uniformly_sample_space (a_min a_max : R) (ntrials : pynum) : M unit :=
  _check_inputs a_min a_max ntrials ;;
  ntrials <- default_ntrials ntrials ;;
  grid <- lift (np_linspace a_min a_max ntrials) ;;
  set_self (set_a_array grid) ;;
  s <- get_self ;;
  set_self (set_posterior (map (calculate_posterior s) grid)).

Definition restart_chain : M unit := set_self (set_chain None).

(** One pass through the body of the [while] loop, up to the assignment of
    [a_current] and [prob_a_current]. *)
Definition mh_trial (s : CalculateE) (a_current prob_a_current : R)
    (g : RandomState) : R * R * RandomState :=
  let (a_trial, g1) := np_random_uniform 1 10 g in
  let prob_a_trial := calculate_posterior s a_trial in
  let acceptance_prob :=
    py_min (Fin 1) (np_true_divide prob_a_trial prob_a_current) in
  let (u, g2) := np_random_uniform 0 1 g1 in
  if np_le (Fin u) acceptance_prob then (a_trial, prob_a_trial, g2)
  else (a_current, prob_a_current, g2).

(** The [while trial_num <= ntrials] loop with its local variables; [lst] is
    the list object [chain] the loop appends to, [limit] is [ntrials]. *)
Equations? mh_while (s : CalculateE) (limit : pynum) (trial_num : Z)
    (a_current prob_a_current : R) (lst : list R) (g : RandomState)
    : list R * RandomState
    by wf (Z.to_nat (py_floor limit + 1 - trial_num)) lt :=
  mh_while s limit trial_num a_current prob_a_current lst g
    with inspect (py_int_le trial_num limit) => {
    | exist _ true guard :=
        mh_while s limit (trial_num + 1)
          (fst (fst (mh_trial s a_current prob_a_current g)))
          (snd (fst (mh_trial s a_current prob_a_current g)))
          (lst ++ [fst (fst (mh_trial s a_current prob_a_current g))])
          (snd (mh_trial s a_current prob_a_current g));
    | exist _ false guard := (lst, g) }.
Proof.
  assert (trial_num <= py_floor limit)%Z; [| lia].
  unfold py_int_le, Rleb in guard.
  destruct (Rle_dec (IZR trial_num) (py_value limit)) as [Hle | ];
    [| discriminate].
  destruct limit as [z | x]; simpl in *.
  - now apply le_IZR.
  - unfold Int_part.
    destruct (archimed x) as [Hup _].
    assert (IZR trial_num < IZR (up x)) as Hlt by lra.
    apply lt_IZR in Hlt. lia.
Qed.

(** [metropolis_hastings].  The seed [a0] is drawn and becomes [a_current]
    on every call; [self.chain or [a_current]] only chooses the list that
    the loop extends.  When that list is [self.chain] the appends update the
    object's own list in place, and [run_mcmc] stores the same list back.
    ([a0] and the proposals are arrays of one element; the first entry of a
    new list is that array, the appended entries are its element.) *)
Definition metropolis_hastings (ntrials : pynum) (a_min a_max : R)
    : M (list R) :=
  a0 <- draw (np_random_uniform a_min a_max) ;;
  s <- get_self ;;
  let prob_a0 := calculate_posterior s a0 in
  let trial_num := 1%Z in
  let a_current := a0 in
  let chain := py_or (chain s) [a_current] in
  let prob_a_current := prob_a0 in
  draw (mh_while s ntrials trial_num a_current prob_a_current chain).

Definition run_mcmc (a_min a_max : R) (ntrials : pynum) : M unit :=
  _check_inputs a_min a_max ntrials ;;
  ntrials <- default_ntrials ntrials ;;
  chain <- metropolis_hastings ntrials a_min a_max ;;
  set_self (set_chain (Some chain)).

(** ** The specification's wording of the posterior (section 4.1)

    [N(a) = sqrt(ln(a) / (2 pi))], the per-point factor of an observation [x]
    is [N(a) * a^(-x^2/2)], and the posterior is the product of the per-point
    factors over the observation set. *)

Definition N (a : R) : R := sqrt (ln a / (2 * PI)).

Definition per_point_factor (a x : R) : R := N a * Rpower a (- (x * x) / 2).

Fixpoint product_over (f : R -> R) (xs : list R) : R :=
  match xs with
  | [] => 1
  | x :: rest => f x * product_over f rest
  end.

Definition posterior_spec (a : R) (xs : list R) : R :=
  product_over (per_point_factor a) xs.

(** ** Vocabulary of the statements *)

(** The generator delivers unit variates. *)
Definition unit_variates (g : RandomState) : Prop :=
  forall i : nat, 0 <= variates g i < 1.

(** [y] is a proposal of the sampler: [uniform(1, 10)] on some variate of
    the generator. *)
Definition proposal (g : RandomState) (y : R) : Prop :=
  exists i : nat, y = 1 + (10 - 1) * variates g i.

(** Every entry of [l] repeats its predecessor ([prev] for the first one) or
    satisfies [P]. *)
Fixpoint repeats_or (P : R -> Prop) (prev : R) (l : list R) : Prop :=
  match l with
  | [] => True
  | y :: rest => (y = prev \/ P y) /\ repeats_or P y rest
  end.

Definition positive_int (n : pynum) : Prop := exists z : Z, n = PyInt z /\ (0 < z)%Z.

Definition chain_length (w : world) : option nat :=
  match chain (self w) with
  | Some c => Some (length c)
  | None => None
  end.

(** ** plot

    matplotlib is outside the program.  [plot] is modelled by the calls it
    makes on it, in order; what matplotlib does with a call is a parameter
    [mpl] that says whether the call returns or raises.  A call that raises
    ends [plot]. *)

(** The [mcmc] argument: [plot] tests it with [is False] and [is True], so
    every object other than the two booleans behaves alike. *)
Inductive pyobj : Type :=
| PyTrue
| PyFalse
| PyOther.

Inductive mpl_call : Type :=
| Plt_subplots (nrows ncols : Z)
| Ax_plot (x y : option (list R)) (label : string)
| Ax_axvline (x : R) (color label : string)
| Ax_axhline (y : R) (color label : string)
| Ax_set_xlabel (text : string)
| Ax_set_ylabel (text : string)
| Ax_set_title (text : string)
| Ax_legend.

(** Calls made so far, and how the method ended. *)
Definition T (A : Type) : Type := list mpl_call -> result A * list mpl_call.

Definition tret {A : Type} (v : A) : T A := fun tr => (Ok v, tr).

Definition traise {A : Type} (e : exn) : T A := fun tr => (Raise e, tr).

Definition tbind {A B : Type} (m : T A) (k : A -> T B) : T B :=
  fun tr =>
    match m tr with
    | (Ok v, tr') => k v tr'
    | (Raise e, tr') => (Raise e, tr')
    end.

Notation "x <~ m ;; k" := (tbind m (fun x => k))
  (at level 61, m at next level, right associativity).
Notation "m ~;; k" := (tbind m (fun _ => k))
  (at level 61, right associativity).

Definition call (mpl : mpl_call -> option exn) (c : mpl_call) : T unit :=
  fun tr =>
    match mpl c with
    | None => (Ok tt, tr ++ [c])
    | Some e => (Raise e, tr ++ [c])
    end.

(** [len(x)] of a list-or-None attribute. *)
Definition py_len {A : Type} (x : option (list A)) : result nat :=
  match x with
  | Some l => Ok (length l)
  | None => Raise TypeError
  end.

(** [np.e] *)
Definition np_e : R := exp 1.

Definition plot (mpl : mpl_call -> option exn) (s : CalculateE) (mcmc : pyobj)
    : T unit :=
  call mpl (Plt_subplots 1 1) ~;;
  match mcmc with
  | PyFalse =>
      call mpl (Ax_plot (a_array s) (posterior s) "Posterior") ~;;
      call mpl (Ax_axvline np_e "C1" "True value") ~;;
      call mpl (Ax_set_xlabel "Parameter a") ~;;
      call mpl Ax_legend ~;;
      call mpl (Ax_set_ylabel "P(a|x)") ~;;
      call mpl (Ax_set_title
                  "Probability of a given a uniformly sampled parameter space")
  | _ => tret tt
  end ~;;
  match mcmc with
  | PyTrue =>
      n <~ (fun tr => (py_len (chain s), tr)) ;;
      call mpl (Ax_plot (Some (map (fun v => v + 1) (np_arange n))) (chain s)
                  "chain") ~;;
      call mpl (Ax_axhline np_e "C1" "True value") ~;;
      call mpl Ax_legend ~;;
      call mpl (Ax_set_xlabel "trial number") ~;;
      call mpl (Ax_set_ylabel "a") ~;;
      call mpl (Ax_set_title "Values of a using Metropolis Hastings algorithm")
  | _ => tret tt
  end.

(** matplotlib when every call returns. *)
Definition mpl_returns (c : mpl_call) : option exn := None.

(** ** Inputs on which the statements are exercised *)

(** The object [__init__] leaves behind, given the sample it generated. *)
Definition new_CalculateE (xs : list R) : CalculateE :=
  {| nsamples := Z.of_nat (length xs); ntrials := 1000; ntrails := None;
     data := xs; a_array := None; posterior := None; chain := None |}.

(** A generator that delivers the variates of [l] and then [1/2] forever. *)
Definition generator (l : list R) : RandomState :=
  {| variates := fun i => nth i l (1 / 2); consumed := 0 |}.

(** A process that has just built an estimator on the single observation
    [0]; the generator will deliver [l]. *)
Definition fresh_world (l : list R) : world :=
  {| self := new_CalculateE [0]; np_random := generator l |}.

(** The same process after earlier sampling left the chain [[3; 5]]. *)
Definition resumed_world (l : list R) : world :=
  {| self := set_chain (Some [3; 5]) (new_CalculateE [0]);
     np_random := generator l |}.

(** * Properties *)

(** ** Comparisons *)

Lemma Rltb_true (x y : R) : x < y -> Rltb x y = true.
Proof. intros H. unfold Rltb. destruct (Rlt_dec x y); [reflexivity | contradiction]. Qed.

Lemma Rltb_false (x y : R) : y <= x -> Rltb x y = false.
Proof. intros H. unfold Rltb. destruct (Rlt_dec x y); [lra | reflexivity]. Qed.

Lemma Rleb_true (x y : R) : x <= y -> Rleb x y = true.
Proof. intros H. unfold Rleb. destruct (Rle_dec x y); [reflexivity | contradiction]. Qed.

Lemma Rleb_false (x y : R) : y < x -> Rleb x y = false.
Proof. intros H. unfold Rleb. destruct (Rle_dec x y); [lra | reflexivity]. Qed.


Lemma Reqb0_false (x : R) : x <> 0 -> Reqb0 x = false.
Proof. intros H. unfold Reqb0. destruct (Req_dec_T x 0); [contradiction | reflexivity]. Qed.

Lemma py_int_le_int (i n : Z) : py_int_le i (PyInt n) = (i <=? n)%Z.
Proof.
  unfold py_int_le. simpl. destruct (Z.leb_spec i n) as [H | H].
  - apply Rleb_true, IZR_le, H.
  - apply Rleb_false, IZR_lt, H.
Qed.

(** ** The posterior *)

Lemma fold_left_Rmult_acc (l : list R) (acc : R) :
  fold_left Rmult l acc = acc * fold_left Rmult l 1.
Proof.
  revert acc. induction l as [| x l IH]; intros acc; simpl.
  - lra.
  - rewrite IH, (IH (1 * x)). ring.
Qed.

Lemma np_product_cons (x : R) (l : list R) :
  np_product (x :: l) = x * np_product l.
Proof.
  unfold np_product. simpl. rewrite fold_left_Rmult_acc. ring.
Qed.

Lemma calculate_posterior_spec (s : CalculateE) (a : R) :
  calculate_posterior s a = posterior_spec a (data s).
Proof.
  unfold calculate_posterior, posterior_spec.
  induction (data s) as [| x xs IH].
  - unfold np_product. reflexivity.
  - cbn [map product_over]. rewrite np_product_cons, IH.
    unfold per_point_factor, N. do 3 f_equal. simpl. lra.
Qed.


Lemma N_pos (a : R) : 1 < a -> 0 < N a.
Proof.
  intros Ha. apply sqrt_lt_R0.
  assert (0 < ln a) by (rewrite <- ln_1; apply ln_increasing; lra).
  pose proof PI_RGT_0. apply Rdiv_lt_0_compat; lra.
Qed.

Lemma N_1 : N 1 = 0.
Proof. unfold N. rewrite ln_1. unfold Rdiv. rewrite Rmult_0_l. apply sqrt_0. Qed.

Lemma Rpower_pos (a y : R) : 0 < Rpower a y.
Proof. apply exp_pos. Qed.


Lemma posterior_spec_pos (a : R) (xs : list R) : 1 < a -> 0 < posterior_spec a xs.
Proof.
  intros Ha. unfold posterior_spec. induction xs as [| x xs IH]; simpl.
  - lra.
  - apply Rmult_lt_0_compat; [| exact IH].
    apply Rmult_lt_0_compat; [apply N_pos, Ha | apply Rpower_pos].
Qed.

Lemma posterior_spec_at_1 (xs : list R) : xs <> [] -> posterior_spec 1 xs = 0.
Proof.
  destruct xs as [| x xs]; [congruence |]. intros _.
  unfold posterior_spec, per_point_factor. simpl. rewrite N_1. ring.
Qed.


Lemma calculate_posterior_pos (s : CalculateE) (a : R) :
  1 < a -> 0 < calculate_posterior s a.
Proof. intros H. rewrite calculate_posterior_spec. now apply posterior_spec_pos. Qed.

Lemma calculate_posterior_at_1 (s : CalculateE) :
  data s <> [] -> calculate_posterior s 1 = 0.
Proof. intros H. rewrite calculate_posterior_spec. now apply posterior_spec_at_1. Qed.

(** ** The sampling loop *)

Lemma mh_while_iter s limit trial_num a_current prob_a_current lst g :
  py_int_le trial_num limit = true ->
  mh_while s limit trial_num a_current prob_a_current lst g =
  mh_while s limit (trial_num + 1)
    (fst (fst (mh_trial s a_current prob_a_current g)))
    (snd (fst (mh_trial s a_current prob_a_current g)))
    (lst ++ [fst (fst (mh_trial s a_current prob_a_current g))])
    (snd (mh_trial s a_current prob_a_current g)).
Proof.
  intros Hguard. rewrite mh_while_equation_1.
  generalize (inspect (py_int_le trial_num limit)). intros [b e].
  destruct b; [| congruence].
  now rewrite mh_while_clause_1_equation_1.
Qed.

Lemma mh_while_exit s limit trial_num a_current prob_a_current lst g :
  py_int_le trial_num limit = false ->
  mh_while s limit trial_num a_current prob_a_current lst g = (lst, g).
Proof.
  intros Hguard. rewrite mh_while_equation_1.
  generalize (inspect (py_int_le trial_num limit)). intros [b e].
  destruct b; [congruence |].
  now rewrite mh_while_clause_1_equation_2.
Qed.

Lemma mh_trial_unfold s a_current prob_a_current g :
  mh_trial s a_current prob_a_current g =
  let a_trial := 1 + (10 - 1) * variates g (consumed g) in
  let u := 0 + (1 - 0) * variates g (S (consumed g)) in
  let g2 := {| variates := variates g; consumed := S (S (consumed g)) |} in
  if np_le (Fin u)
       (py_min (Fin 1)
          (np_true_divide (calculate_posterior s a_trial) prob_a_current))
  then (a_trial, calculate_posterior s a_trial, g2)
  else (a_current, prob_a_current, g2).
Proof. reflexivity. Qed.

Lemma mh_trial_variates s a_current prob_a_current g :
  variates (snd (mh_trial s a_current prob_a_current g)) = variates g.
Proof.
  rewrite mh_trial_unfold. cbv zeta.
  destruct (np_le _ _); reflexivity.
Qed.

Lemma mh_trial_value s a_current prob_a_current g :
  fst (fst (mh_trial s a_current prob_a_current g)) = a_current \/
  proposal g (fst (fst (mh_trial s a_current prob_a_current g))).
Proof.
  rewrite mh_trial_unfold. cbv zeta.
  destruct (np_le _ _); simpl; [right | left; reflexivity].
  exists (consumed g). reflexivity.
Qed.

Lemma proposal_variates g g' y :
  variates g' = variates g -> proposal g' y -> proposal g y.
Proof. intros E [i Hi]. exists i. now rewrite <- E. Qed.

Lemma repeats_or_variates g g' prev l :
  variates g' = variates g ->
  repeats_or (proposal g') prev l -> repeats_or (proposal g) prev l.
Proof.
  intros E. revert prev. induction l as [| y l IH]; intros prev; simpl; [trivial |].
  intros [[Hy | Hy] Hl]; (split; [| now apply IH]).
  - now left.
  - right. eapply proposal_variates; eauto.
Qed.

(** The loop only appends, and each appended entry repeats the state it
    started the trial from or is that trial's proposal. *)
Lemma mh_while_appends s limit trial_num a_current prob_a_current lst g :
  exists ext,
    fst (mh_while s limit trial_num a_current prob_a_current lst g) = lst ++ ext /\
    variates (snd (mh_while s limit trial_num a_current prob_a_current lst g)) =
      variates g /\
    repeats_or (proposal g) a_current ext.
Proof.
  funelim (mh_while s limit trial_num a_current prob_a_current lst g).
  - match goal with IH : exists _, _ |- _ => destruct IH as (ext & Hfst & Hvar & Hrep) end.
    exists (fst (fst (mh_trial s a_current prob_a_current g)) :: ext).
    rewrite Hfst, Hvar, <- app_assoc, mh_trial_variates.
    repeat split.
    + apply mh_trial_value.
    + eapply repeats_or_variates; [apply mh_trial_variates | exact Hrep].
  - exists []. simpl. rewrite app_nil_r. auto.
Qed.

Lemma py_int_le_floor (i : Z) (n : pynum) :
  py_int_le i n = (i <=? py_floor n)%Z.
Proof.
  destruct n as [z | x].
  - apply py_int_le_int.
  - unfold py_int_le, py_floor, Int_part. simpl py_value.
    destruct (archimed x) as [Hup Hlow].
    destruct (Z.leb_spec i (up x - 1)) as [H | H].
    + apply Rleb_true.
      assert (IZR i <= IZR (up x - 1)) as Hi by now apply IZR_le.
      rewrite minus_IZR in Hi. lra.
    + apply Rleb_false.
      assert (IZR (up x) <= IZR i) as Hi by (apply IZR_le; lia).
      destruct (Rle_lt_dec (IZR i) x) as [Hle | Hlt]; [| exact Hlt].
      exfalso. lra.
Qed.

(** The loop appends one entry for each value of [trial_num] up to the
    limit. *)
Lemma mh_while_length s limit trial_num a_current prob_a_current lst g :
  length (fst (mh_while s limit trial_num a_current prob_a_current lst g)) =
  (length lst + Z.to_nat (py_floor limit + 1 - trial_num))%nat.
Proof.
  funelim (mh_while s limit trial_num a_current prob_a_current lst g).
  - match goal with IH : length _ = _ |- _ => rewrite IH end.
    pose proof guard as Hle. rewrite py_int_le_floor in Hle.
    apply Z.leb_le in Hle. rewrite length_app. simpl. lia.
  - pose proof guard as Hgt. rewrite py_int_le_floor in Hgt.
    apply Z.leb_gt in Hgt. simpl. lia.
Qed.

(** ** Claims about one trial *)

(** C10: in a trial where [p_current > 0] and the proposal's posterior is at
    least [p_current], the acceptance probability [min(1, p_trial/p_current)]
    is 1 and the proposal is accepted whatever unit variate [u] is drawn: the
    trial ends with [a_current = a_trial] and [prob_a_current = p_trial]. *)
Theorem proposal_at_least_as_probable_is_accepted
    (s : CalculateE) (a_current prob_a_current : R) (g : RandomState) :
  unit_variates g ->
  0 < prob_a_current ->
  prob_a_current <= calculate_posterior s (fst (np_random_uniform 1 10 g)) ->
  let a_trial := fst (np_random_uniform 1 10 g) in
  let prob_a_trial := calculate_posterior s a_trial in
  py_min (Fin 1) (np_true_divide prob_a_trial prob_a_current) = Fin 1 /\
  fst (mh_trial s a_current prob_a_current g) = (a_trial, prob_a_trial).
Proof.
  intros Hg Hpos Hge a_trial prob_a_trial.
  assert (py_min (Fin 1) (np_true_divide prob_a_trial prob_a_current) = Fin 1)
    as Hmin.
  { unfold np_true_divide. rewrite Reqb0_false by lra.
    unfold py_min, np_lt. rewrite Rltb_false; [reflexivity |].
    apply Rmult_le_reg_r with prob_a_current; [exact Hpos |].
    unfold Rdiv. rewrite Rmult_assoc, Rinv_l by lra.
    fold a_trial prob_a_trial in Hge. lra. }
  split; [exact Hmin |].
  rewrite mh_trial_unfold. cbv zeta.
  change (1 + (10 - 1) * variates g (consumed g)) with a_trial.
  fold prob_a_trial. rewrite Hmin. unfold np_le.
  rewrite Rleb_true; [reflexivity |].
  destruct (Hg (S (consumed g))). lra.
Qed.

Lemma generator_unit_variates_half : unit_variates (generator []).
Proof. intros i. simpl. destruct i; simpl; lra. Qed.

Lemma proposal_at_least_as_probable_is_accepted_witness :
  fst (mh_trial (new_CalculateE [0]) 2
         (calculate_posterior (new_CalculateE [0]) (11 / 2)) (generator [])) =
  (11 / 2, calculate_posterior (new_CalculateE [0]) (11 / 2)).
Proof.
  assert (fst (np_random_uniform 1 10 (generator [])) = 11 / 2) as E
    by (simpl; lra).
  rewrite <- E.
  apply (proposal_at_least_as_probable_is_accepted (new_CalculateE [0]) 2
           (calculate_posterior (new_CalculateE [0])
              (fst (np_random_uniform 1 10 (generator [])))) (generator [])).
  - exact generator_unit_variates_half.
  - apply calculate_posterior_pos. rewrite E. lra.
  - apply Rle_refl.
Defined.

(** ** Validation and the public operations *)

Lemma check_inputs_ok a_min a_max n w :
  1 < a_min -> a_min < a_max -> (0 < n)%Z ->
  _check_inputs a_min a_max (PyInt n) w = (Ok tt, w).
Proof.
  intros H1 H2 H3. unfold _check_inputs, bind, py_assert, py_gt0.
  rewrite (Rltb_true 1 a_min H1). unfold ret at 1.
  rewrite (Rltb_true a_min a_max H2). unfold ret at 1. simpl py_value.
  rewrite Rltb_true by (now apply IZR_lt). reflexivity.
Qed.

Lemma check_inputs_a_min a_min a_max ntrials w :
  a_min <= 1 ->
  _check_inputs a_min a_max ntrials w =
  (Raise (AssertionError normalization_msg), w).
Proof.
  intros H. unfold _check_inputs, bind, py_assert.
  rewrite (Rltb_false 1 a_min H). reflexivity.
Qed.

Lemma not_positive_int_check (ntrials : pynum) :
  ~ positive_int ntrials -> py_gt0 ntrials && py_isinstance_int ntrials = false.
Proof.
  intros H. destruct ntrials as [z | x]; simpl.
  - rewrite andb_true_r. unfold py_gt0. simpl. apply Rltb_false.
    destruct (Z_lt_le_dec 0 z) as [Hz | Hz].
    + exfalso. apply H. now exists z.
    + now apply IZR_le.
  - apply andb_false_r.
Qed.

Lemma check_inputs_raises a_min a_max ntrials w :
  a_min <= 1 \/ a_max <= a_min \/ ~ positive_int ntrials ->
  exists msg, _check_inputs a_min a_max ntrials w = (Raise (AssertionError msg), w).
Proof.
  intros H. unfold _check_inputs, bind, py_assert.
  destruct (Rlt_dec 1 a_min) as [H1 | H1].
  2:{ rewrite Rltb_false by lra. eexists. reflexivity. }
  rewrite (Rltb_true _ _ H1). unfold ret at 1.
  destruct (Rlt_dec a_min a_max) as [H2 | H2].
  2:{ rewrite Rltb_false by lra. eexists. reflexivity. }
  rewrite (Rltb_true _ _ H2). unfold ret at 1.
  destruct H as [H | [H | H]]; try lra.
  rewrite (not_positive_int_check _ H). eexists. reflexivity.
Qed.

Lemma default_ntrials_int n w :
  (0 < n)%Z ->
  default_ntrials (PyInt n) w =
  (Ok (PyInt n),
   {| self := set_ntrails (PyInt n) (self w); np_random := np_random w |}).
Proof.
  intros Hn. unfold default_ntrials, py_truthy.
  destruct (Z.eqb_spec n 0) as [E | _]; [lia |]. reflexivity.
Qed.

(** A call of [run_mcmc] on valid arguments never raises: it draws the seed,
    runs the loop and stores the list the loop returns. *)
Lemma run_mcmc_valid a_min a_max n w :
  1 < a_min -> a_min < a_max -> (0 < n)%Z ->
  run_mcmc a_min a_max (PyInt n) w =
  let s1 := set_ntrails (PyInt n) (self w) in
  let a0 := fst (np_random_uniform a_min a_max (np_random w)) in
  let g1 := snd (np_random_uniform a_min a_max (np_random w)) in
  let r := mh_while s1 (PyInt n) 1 a0 (calculate_posterior s1 a0)
             (py_or (chain (self w)) [a0]) g1 in
  (Ok tt, {| self := set_chain (Some (fst r)) s1; np_random := snd r |}).
Proof.
  intros H1 H2 H3. unfold run_mcmc, bind.
  rewrite check_inputs_ok by assumption.
  rewrite default_ntrials_int by assumption.
  unfold metropolis_hastings, bind, draw, get_self, set_self. cbn -[mh_while].
  destruct (mh_while _ _ _ _ _ _ _) as [c g2] eqn:E. reflexivity.
Qed.

Lemma py_or_nonempty {A : Type} (c y : list A) : c <> [] -> py_or (Some c) y = c.
Proof. destruct c; [congruence | reflexivity]. Qed.

Lemma run_mcmc_length a_min a_max n w :
  1 < a_min -> a_min < a_max -> (0 < n)%Z ->
  exists w1,
    run_mcmc a_min a_max (PyInt n) w = (Ok tt, w1) /\
    chain_length w1 =
      Some (length (py_or (chain (self w)) [fst (np_random_uniform a_min a_max (np_random w))])
            + Z.to_nat n)%nat.
Proof.
  intros H1 H2 H3. rewrite run_mcmc_valid by assumption. cbv zeta.
  eexists. split; [reflexivity |].
  unfold chain_length. cbn [self chain set_chain].
  rewrite mh_while_length. cbn [py_floor]. do 3 f_equal. lia.
Qed.

(** ** Claims about the public operations *)

(** C2: for a positive integer [n] and a valid range, [run_mcmc] on an
    estimator without a chain leaves a chain of length [n + 1]; a following
    [run_mcmc] with [m] trials, without restart, grows it to [(n + 1) + m];
    and [restart_chain] followed by [run_mcmc] leaves a chain of length
    [n + 1] whatever the chain was before. *)
Theorem chain_length_law (w : world) (a_min a_max : R) (n m : Z) :
  1 < a_min -> a_min < a_max -> (0 < n)%Z -> (0 < m)%Z ->
  (chain (self w) = None ->
   exists w1 w2,
     run_mcmc a_min a_max (PyInt n) w = (Ok tt, w1) /\
     chain_length w1 = Some (Z.to_nat n + 1)%nat /\
     run_mcmc a_min a_max (PyInt m) w1 = (Ok tt, w2) /\
     chain_length w2 = Some ((Z.to_nat n + 1) + Z.to_nat m)%nat) /\
  (exists w0 w1,
     restart_chain w = (Ok tt, w0) /\
     run_mcmc a_min a_max (PyInt n) w0 = (Ok tt, w1) /\
     chain_length w1 = Some (Z.to_nat n + 1)%nat).
Proof.
  intros H1 H2 Hn Hm. split.
  - intros Hnone.
    destruct (run_mcmc_length a_min a_max n w H1 H2 Hn) as (w1 & Hrun1 & Hlen1).
    rewrite Hnone in Hlen1. cbn [py_or length] in Hlen1.
    destruct (run_mcmc_length a_min a_max m w1 H1 H2 Hm) as (w2 & Hrun2 & Hlen2).
    exists w1, w2. repeat split; try assumption.
    + rewrite Hlen1. f_equal. lia.
    + rewrite Hlen2. unfold chain_length in Hlen1.
      destruct (chain (self w1)) as [c |]; [| discriminate].
      injection Hlen1 as Hc.
      rewrite py_or_nonempty by (destruct c; [simpl in Hc; lia | discriminate]).
      f_equal. lia.
  - eexists. 
    destruct (run_mcmc_length a_min a_max n
                {| self := set_chain None (self w); np_random := np_random w |}
                H1 H2 Hn) as (w1 & Hrun1 & Hlen1).
    exists w1. split; [reflexivity |]. split; [exact Hrun1 |].
    rewrite Hlen1. cbn [self chain set_chain py_or length]. f_equal. lia.
Qed.

Lemma chain_length_law_witness :
  (exists w1 w2,
     run_mcmc (101 / 100) 10 (PyInt 5)
       (fresh_world []) = (Ok tt, w1) /\
     chain_length w1 = Some 6%nat /\
     run_mcmc (101 / 100) 10 (PyInt 3) w1 = (Ok tt, w2) /\
     chain_length w2 = Some 9%nat) /\
  (exists w0 w1,
     restart_chain (fresh_world [])
       = (Ok tt, w0) /\
     run_mcmc (101 / 100) 10 (PyInt 5) w0 = (Ok tt, w1) /\
     chain_length w1 = Some 6%nat).
Proof.
  destruct (chain_length_law
              (fresh_world [])
              (101 / 100) 10 5 3) as [Hfresh Hrestart]; [lra | lra | lia | lia |].
  split; [apply Hfresh; reflexivity | exact Hrestart].
Defined.

(** C8: a call of [uniformly_sample_space] or [run_mcmc] with [a_min <= 1],
    [a_min >= a_max] or a trial count that is not a positive integer raises
    at once: the world after the call is the world before it, so neither the
    stored grid and chain nor any other attribute has changed and no variate
    has been drawn. *)
Theorem invalid_arguments_raise_without_effect
    (w : world) (a_min a_max : R) (ntrials : pynum) :
  a_min <= 1 \/ a_max <= a_min \/ ~ positive_int ntrials ->
  (exists e, uniformly_sample_space a_min a_max ntrials w = (Raise e, w)) /\
  (exists e, run_mcmc a_min a_max ntrials w = (Raise e, w)).
Proof.
  intros H.
  destruct (check_inputs_raises a_min a_max ntrials w H) as [msg Hmsg].
  split; exists (AssertionError msg).
  - unfold uniformly_sample_space, bind at 1. now rewrite Hmsg.
  - unfold run_mcmc, bind at 1. now rewrite Hmsg.
Qed.

Lemma invalid_arguments_raise_without_effect_witness :
  (exists e,
     uniformly_sample_space (1 / 2) 5 (PyInt 10)
       (fresh_world []) =
     (Raise e, (fresh_world []))) /\
  (exists e,
     run_mcmc (1 / 2) 5 (PyInt 10)
       (fresh_world []) =
     (Raise e, (fresh_world []))).
Proof.
  apply (invalid_arguments_raise_without_effect
           (fresh_world [])
           (1 / 2) 5 (PyInt 10)).
  left. lra.
Defined.

(** ** Claims about the posterior *)

(** C5: for [a > 1] and a non-empty observation set, [calculate_posterior]
    returns the product over the observations [x] of
    [sqrt(ln(a)/(2 pi)) * a^(-x^2/2)], and the value is determined by [a] and
    the observation set alone: it is a function of the object that returns
    no new object, and two objects with the same observations give the same
    value. *)
Theorem calculate_posterior_is_the_product_of_the_factors
    (s : CalculateE) (a : R) :
  1 < a -> data s <> [] ->
  calculate_posterior s a =
    product_over (fun x => sqrt (ln a / (2 * PI)) * Rpower a (- (x * x) / 2))
      (data s) /\
  (forall s' : CalculateE,
     data s' = data s -> calculate_posterior s' a = calculate_posterior s a).
Proof.
  intros _ _. split.
  - apply calculate_posterior_spec.
  - intros s' E. now rewrite !calculate_posterior_spec, E.
Qed.

Lemma calculate_posterior_is_the_product_of_the_factors_witness :
  calculate_posterior (new_CalculateE [0; 1]) 2 =
    product_over (fun x => sqrt (ln 2 / (2 * PI)) * Rpower 2 (- (x * x) / 2))
      [0; 1] /\
  (forall s' : CalculateE,
     data s' = [0; 1] ->
     calculate_posterior s' 2 = calculate_posterior (new_CalculateE [0; 1]) 2).
Proof.
  apply (calculate_posterior_is_the_product_of_the_factors
           (new_CalculateE [0; 1]) 2); [lra | discriminate].
Defined.




(** ** The grid *)

Lemma set_last_snoc (l : list R) (x v : R) : set_last (l ++ [x]) v = l ++ [v].
Proof.
  unfold set_last. destruct (l ++ [x]) as [| y t] eqn:E.
  - destruct l; discriminate.
  - rewrite <- E, removelast_last. reflexivity.
Qed.

Lemma nth_map_seq (f : nat -> R) (m i : nat) :
  (i < m)%nat -> nth i (map f (seq 0 m)) 0 = f i.
Proof.
  intros H. rewrite (nth_indep _ 0 (f 0%nat)) by now rewrite length_map, length_seq.
  rewrite map_nth, seq_nth by assumption. reflexivity.
Qed.

(** For two points or more the grid is [start + i * step] for the first
    [num - 1] indices, followed by [stop]. *)
Lemma linspace_values_many (start stop : R) (num : Z) :
  (2 <= num)%Z ->
  linspace_values start stop num =
  map (fun i => INR i * ((stop - start) / IZR (num - 1)) + start)
    (seq 0 (Z.to_nat num - 1)) ++ [stop].
Proof.
  intros Hnum. unfold linspace_values, np_arange.
  destruct (Z.ltb_spec 0 (num - 1)) as [_ | H]; [| lia].
  destruct (Z.ltb_spec 1 num) as [_ | H]; [| lia].
  replace (Z.to_nat num) with (S (Z.to_nat num - 1)) at 1 by lia.
  rewrite seq_S, !map_app, !map_map. cbn [map]. apply set_last_snoc.
Qed.

Lemma linspace_values_one (start stop : R) :
  linspace_values start stop 1 = [0 * (stop - start) + start].
Proof. reflexivity. Qed.

Lemma linspace_values_length (start stop : R) (num : Z) :
  (1 <= num)%Z -> length (linspace_values start stop num) = Z.to_nat num.
Proof.
  intros Hnum. destruct (Z.eq_dec num 1) as [-> | Hne]; [reflexivity |].
  rewrite linspace_values_many by lia.
  rewrite length_app, length_map, length_seq. simpl. lia.
Qed.

Lemma linspace_values_nth (start stop : R) (num : Z) (i : nat) :
  (1 <= num)%Z -> (i < Z.to_nat num)%nat ->
  nth i (linspace_values start stop num) 0 =
  start + INR i * ((stop - start) / IZR (num - 1)).
Proof.
  intros Hnum Hi. destruct (Z.eq_dec num 1) as [-> | Hne].
  - replace i with 0%nat by (simpl in Hi; lia). simpl. lra.
  - rewrite linspace_values_many by lia.
    destruct (Nat.lt_ge_cases i (Z.to_nat num - 1)) as [Hlt | Hge].
    + rewrite app_nth1 by now rewrite length_map, length_seq.
      rewrite nth_map_seq by assumption. lra.
    + rewrite app_nth2 by now rewrite length_map, length_seq.
      rewrite length_map, length_seq.
      replace (i - (Z.to_nat num - 1))%nat with 0%nat by lia. simpl nth.
      replace i with (Z.to_nat (num - 1)) by lia.
      rewrite INR_IZR_INZ, Z2Nat.id by lia.
      assert (IZR (num - 1) <> 0) by (apply not_0_IZR; lia).
      field. assumption.
Qed.

Lemma linspace_values_last (start stop : R) (num : Z) :
  (2 <= num)%Z -> last (linspace_values start stop num) 0 = stop.
Proof.
  intros Hnum. rewrite linspace_values_many by assumption. apply last_last.
Qed.

Lemma calculate_posterior_data (s s' : CalculateE) (a : R) :
  data s' = data s -> calculate_posterior s' a = calculate_posterior s a.
Proof. intros E. now rewrite !calculate_posterior_spec, E. Qed.

Lemma uniformly_sample_space_valid a_min a_max n w :
  1 < a_min -> a_min < a_max -> (0 < n)%Z ->
  uniformly_sample_space a_min a_max (PyInt n) w =
  let grid := linspace_values a_min a_max n in
  (Ok tt,
   {| self :=
        set_posterior (map (calculate_posterior (self w)) grid)
          (set_a_array grid (set_ntrails (PyInt n) (self w)));
      np_random := np_random w |}).
Proof.
  intros H1 H2 H3. unfold uniformly_sample_space, bind.
  rewrite check_inputs_ok by assumption.
  rewrite default_ntrials_int by assumption.
  unfold lift, np_linspace.
  destruct (Z.ltb_spec n 0) as [H | _]; [lia |].
  unfold set_self, get_self. reflexivity.
Qed.

(** C7, the claim as stated fails: with one point the grid is [a_min] alone
    and does not reach [a_max]. *)
Lemma single_point_grid_stops_at_a_min :
  exists w' cs,
    uniformly_sample_space 2 3 (PyInt 1) (fresh_world []) = (Ok tt, w') /\
    a_array (self w') = Some cs /\
    length cs = 1%nat /\
    last cs 0 = 2 /\ last cs 0 <> 3.
Proof.
  rewrite uniformly_sample_space_valid by (lra || lia). cbv zeta.
  eexists. eexists. split; [reflexivity |]. split; [reflexivity |].
  rewrite linspace_values_one. simpl. repeat split; lra.
Qed.

(** C7, amended: for [a_min > 1], [a_max > a_min] and a positive integer
    [n_points], [uniformly_sample_space] stores a candidate sequence with
    exactly [n_points] entries that starts at [a_min], never decreases, has
    [a_min + i * (a_max - a_min) / (n_points - 1)] as its entry [i] before
    the last one, and ends at [a_max] when [n_points >= 2]; and a posterior
    sequence of the same length that is the posterior of each candidate in
    the same order.  No variate is drawn. *)
Theorem grid_is_monotone_and_spans_the_range
    (w : world) (a_min a_max : R) (n_points : Z) :
  1 < a_min -> a_min < a_max -> (1 <= n_points)%Z ->
  exists w' cs ps,
    uniformly_sample_space a_min a_max (PyInt n_points) w = (Ok tt, w') /\
    a_array (self w') = Some cs /\
    posterior (self w') = Some ps /\
    np_random w' = np_random w /\
    length cs = Z.to_nat n_points /\
    (forall i : nat,
       (S i < Z.to_nat n_points)%nat ->
       nth i cs 0 = INR i * ((a_max - a_min) / IZR (n_points - 1)) + a_min /\
       nth i cs 0 <= nth (S i) cs 0) /\
    nth 0 cs 0 = a_min /\
    ((2 <= n_points)%Z -> last cs 0 = a_max) /\
    length ps = length cs /\
    ps = map (calculate_posterior (self w)) cs.
Proof.
  intros H1 H2 Hn.
  rewrite uniformly_sample_space_valid by (assumption || lia). cbv zeta.
  eexists. eexists. eexists.
  split; [reflexivity |]. split; [reflexivity |]. split; [reflexivity |].
  split; [reflexivity |].
  split; [now apply linspace_values_length |].
  split; [| split; [| split; [| split]]].
  - intros i Hi. rewrite !linspace_values_nth by lia.
    assert (0 < (a_max - a_min) / IZR (n_points - 1)) as Hstep.
    { apply Rdiv_lt_0_compat; [lra |]. apply IZR_lt. lia. }
    rewrite S_INR. split; [ring | nra].
  - rewrite linspace_values_nth by lia. simpl. lra.
  - apply linspace_values_last.
  - apply length_map.
  - reflexivity.
Qed.

Lemma grid_is_monotone_and_spans_the_range_witness :
  exists w' cs ps,
    uniformly_sample_space (101 / 100) 7 (PyInt 4) (fresh_world []) = (Ok tt, w') /\
    a_array (self w') = Some cs /\
    posterior (self w') = Some ps /\
    np_random w' = np_random (fresh_world []) /\
    length cs = 4%nat /\
    (forall i : nat,
       (S i < 4)%nat ->
       nth i cs 0 = INR i * ((7 - 101 / 100) / IZR (4 - 1)) + 101 / 100 /\
       nth i cs 0 <= nth (S i) cs 0) /\
    nth 0 cs 0 = 101 / 100 /\
    ((2 <= 4)%Z -> last cs 0 = 7) /\
    length ps = length cs /\
    ps = map (calculate_posterior (self (fresh_world []))) cs.
Proof.
  apply (grid_is_monotone_and_spans_the_range
           (fresh_world []) (101 / 100) 7 4); [lra | lra | lia].
Defined.

(** ** Trials with a vanishing posterior *)



(** The proposal [1] has posterior 0: against a positive current posterior
    the acceptance probability is 0, so it is rejected by every [u > 0] and
    accepted by [u = 0]. *)
Lemma mh_trial_proposal_1 s a_current prob_a_current g :
  data s <> [] -> 0 < prob_a_current ->
  variates g (consumed g) = 0 ->
  fst (mh_trial s a_current prob_a_current g) =
  if Rleb (variates g (S (consumed g))) 0 then (1, 0)
  else (a_current, prob_a_current).
Proof.
  intros Hdata Hpos Hv. rewrite mh_trial_unfold. cbv zeta. rewrite Hv.
  replace (1 + (10 - 1) * 0) with 1 by lra.
  rewrite calculate_posterior_at_1 by assumption.
  unfold np_true_divide. rewrite Reqb0_false by lra.
  replace (0 / prob_a_current) with 0 by (unfold Rdiv; ring).
  unfold py_min, np_lt. rewrite (Rltb_true 0 1) by lra. unfold np_le.
  replace (0 + (1 - 0) * variates g (S (consumed g)))
    with (variates g (S (consumed g))) by lra.
  destruct (Rleb _ 0); reflexivity.
Qed.

Lemma mh_while_int_iter s n trial_num a_current prob_a_current lst g :
  (trial_num <= n)%Z ->
  mh_while s (PyInt n) trial_num a_current prob_a_current lst g =
  mh_while s (PyInt n) (trial_num + 1)
    (fst (fst (mh_trial s a_current prob_a_current g)))
    (snd (fst (mh_trial s a_current prob_a_current g)))
    (lst ++ [fst (fst (mh_trial s a_current prob_a_current g))])
    (snd (mh_trial s a_current prob_a_current g)).
Proof.
  intros H. apply mh_while_iter. rewrite py_int_le_int. now apply Z.leb_le.
Qed.

Lemma mh_while_int_exit s n trial_num a_current prob_a_current lst g :
  (n < trial_num)%Z ->
  mh_while s (PyInt n) trial_num a_current prob_a_current lst g = (lst, g).
Proof.
  intros H. apply mh_while_exit. rewrite py_int_le_int. now apply Z.leb_gt.
Qed.

Lemma seed_in_range a_min a_max g :
  a_min < a_max -> unit_variates g ->
  a_min <= fst (np_random_uniform a_min a_max g) < a_max.
Proof.
  intros H Hg. simpl. destruct (Hg (consumed g)). split; nra.
Qed.

(** One trial whose proposal is [1] and whose [u] is positive: the entry
    appended is the seed just drawn, whether or not a chain was there. *)
Lemma run_mcmc_single_rejected_trial a_min a_max w :
  1 < a_min -> a_min < a_max -> data (self w) <> [] ->
  0 <= variates (np_random w) (consumed (np_random w)) ->
  variates (np_random w) (S (consumed (np_random w))) = 0 ->
  0 < variates (np_random w) (S (S (consumed (np_random w)))) ->
  exists w',
    run_mcmc a_min a_max (PyInt 1) w = (Ok tt, w') /\
    chain (self w') =
      Some (py_or (chain (self w)) [fst (np_random_uniform a_min a_max (np_random w))]
            ++ [fst (np_random_uniform a_min a_max (np_random w))]).
Proof.
  intros H1 H2 Hdata Hu0 Hu1 Hu2.
  rewrite run_mcmc_valid by (assumption || lia). cbv zeta.
  eexists. split; [reflexivity |]. cbn [self chain set_chain].
  rewrite mh_while_int_iter, mh_while_int_exit by lia. cbn [fst].
  rewrite mh_trial_proposal_1.
  - cbn [snd np_random_uniform random_sample consumed variates].
    rewrite Rleb_false by assumption. reflexivity.
  - exact Hdata.
  - apply calculate_posterior_pos. simpl. nra.
  - exact Hu1.
Qed.

Lemma mh_trial_generator s a_current prob_a_current g :
  snd (mh_trial s a_current prob_a_current g) =
  {| variates := variates g; consumed := S (S (consumed g)) |}.
Proof.
  rewrite mh_trial_unfold. cbv zeta. destruct (np_le _ _); reflexivity.
Qed.

Lemma proposal_in_range g y : unit_variates g -> proposal g y -> 1 <= y < 10.
Proof. intros Hg [i ->]. destruct (Hg i). split; lra. Qed.

Lemma repeats_or_Forall (P Q : R -> Prop) (a0 prev : R) (l : list R) :
  (forall y, P y -> Q y) ->
  prev = a0 \/ Q prev ->
  repeats_or P prev l ->
  Forall (fun y => y = a0 \/ Q y) l.
Proof.
  intros HPQ. revert prev. induction l as [| y l IH]; intros prev Hprev; simpl.
  - constructor.
  - intros [[-> | Hy] Hl].
    + constructor; [exact Hprev | now apply (IH prev)].
    + constructor; [right; now apply HPQ |].
      apply (IH y); [right; now apply HPQ | exact Hl].
Qed.

(** ** Claims about the chain *)

(** C1, the code at a failing input: the estimator holds the chain [[3; 5]]
    and the generator delivers 1/2, 0, 1/2.  [run_mcmc(2, 3, 1)] returns
    normally and the chain is then [[3; 5; 5/2]]: the call drew the seed 5/2
    from [[a_min, a_max]], ran its trial from that seed and, the proposal 1
    being rejected, appended the seed.  A run continuing from the last value
    would have appended 5. *)
Theorem resumed_run_continues_from_a_fresh_seed :
  exists w',
    run_mcmc 2 3 (PyInt 1) (resumed_world [1 / 2; 0; 1 / 2]) = (Ok tt, w') /\
    chain (self w') = Some [3; 5; 5 / 2].
Proof.
  destruct (run_mcmc_single_rejected_trial 2 3 (resumed_world [1 / 2; 0; 1 / 2]))
    as (w' & Hrun & Hchain); simpl; try lra; try discriminate.
  exists w'. split; [exact Hrun |]. rewrite Hchain. simpl.
  do 4 f_equal. lra.
Qed.

(** C9, the code at a failing input: in every trial the proposal is
    [1 + 9 * u] for a unit variate [u], whatever [a_min] and [a_max] are;
    but on an estimator that holds the chain [[3; 5]], with the generator
    delivering 1/2, 0, 1/2, [run_mcmc(2, 3, 1)] leaves [[3; 5; 5/2]] and
    [run_mcmc(2, 4, 1)] leaves [[3; 5; 3]]: the range arguments decide the
    entry appended to an existing chain. *)
Theorem range_arguments_change_a_resumed_run :
  (forall s a_current prob_a_current g,
     fst (fst (mh_trial s a_current prob_a_current g)) = a_current \/
     fst (fst (mh_trial s a_current prob_a_current g)) =
       1 + (10 - 1) * variates g (consumed g)) /\
  exists w1 w2,
    run_mcmc 2 3 (PyInt 1) (resumed_world [1 / 2; 0; 1 / 2]) = (Ok tt, w1) /\
    run_mcmc 2 4 (PyInt 1) (resumed_world [1 / 2; 0; 1 / 2]) = (Ok tt, w2) /\
    chain (self w1) = Some [3; 5; 5 / 2] /\
    chain (self w2) = Some [3; 5; 3].
Proof.
  split.
  - intros s a p g. rewrite mh_trial_unfold. cbv zeta.
    destruct (np_le _ _); [right | left]; reflexivity.
  - destruct (run_mcmc_single_rejected_trial 2 3 (resumed_world [1 / 2; 0; 1 / 2]))
      as (w1 & Hrun1 & Hchain1); simpl; try lra; try discriminate.
    destruct (run_mcmc_single_rejected_trial 2 4 (resumed_world [1 / 2; 0; 1 / 2]))
      as (w2 & Hrun2 & Hchain2); simpl; try lra; try discriminate.
    exists w1, w2. repeat split; try assumption.
    + rewrite Hchain1. simpl. do 4 f_equal. lra.
    + rewrite Hchain2. simpl. do 4 f_equal. lra.
Qed.

(** C4, the claim as stated fails: with the range [[11, 12]] a fresh run of
    one trial whose proposal is rejected leaves the chain [[23/2; 23/2]]:
    the entry after the seed entry lies outside [[1, 10]]. *)
Lemma repeated_seed_lies_outside_the_proposal_range :
  exists w' c,
    run_mcmc 11 12 (PyInt 1) (fresh_world [1 / 2; 0; 1 / 2]) = (Ok tt, w') /\
    chain (self w') = Some c /\
    length c = 2%nat /\
    nth 1 c 0 = 23 / 2 /\
    ~ (1 <= nth 1 c 0 <= 10).
Proof.
  destruct (run_mcmc_single_rejected_trial 11 12 (fresh_world [1 / 2; 0; 1 / 2]))
    as (w' & Hrun & Hchain); simpl; try lra; try discriminate.
  exists w'. eexists. split; [exact Hrun |]. split; [exact Hchain |].
  simpl. repeat split; lra.
Qed.

(** C4, amended: for every chain produced by [run_mcmc] on an estimator
    without a chain, the first entry is the seed, which lies in
    [[a_min, a_max]]; each later entry repeats the entry before it or is a
    proposal, a value drawn from [[1, 10]]; so every entry after the first
    lies in [[1, 10]] or repeats the seed. *)
Theorem fresh_chain_transitions
    (w : world) (a_min a_max : R) (n : Z) :
  1 < a_min -> a_min < a_max -> (0 < n)%Z ->
  unit_variates (np_random w) -> chain (self w) = None ->
  exists w' a0 rest,
    run_mcmc a_min a_max (PyInt n) w = (Ok tt, w') /\
    chain (self w') = Some (a0 :: rest) /\
    a_min <= a0 <= a_max /\
    repeats_or (proposal (np_random w)) a0 rest /\
    Forall (fun y => y = a0 \/ 1 <= y <= 10) rest.
Proof.
  intros H1 H2 Hn Hg Hnone.
  rewrite run_mcmc_valid by assumption. cbv zeta. rewrite Hnone.
  cbn [py_or].
  set (a0 := fst (np_random_uniform a_min a_max (np_random w))).
  set (g1 := snd (np_random_uniform a_min a_max (np_random w))).
  set (s1 := set_ntrails (PyInt n) (self w)).
  destruct (mh_while_appends s1 (PyInt n) 1 a0 (calculate_posterior s1 a0) [a0] g1)
    as (ext & Hfst & _ & Hrep).
  assert (repeats_or (proposal (np_random w)) a0 ext) as Hrep'.
  { eapply repeats_or_variates; [| exact Hrep]. reflexivity. }
  eexists. exists a0, ext.
  split; [reflexivity |]. cbn [self chain set_chain].
  split; [now rewrite Hfst |].
  split.
  { pose proof (seed_in_range a_min a_max (np_random w) H2 Hg) as Hseed.
    fold a0 in Hseed. lra. }
  split; [exact Hrep' |].
  apply (repeats_or_Forall (proposal (np_random w)) _ a0 a0);
    [| now left | exact Hrep'].
  intros y Hy. destruct (proposal_in_range (np_random w) y Hg Hy). lra.
Qed.

Lemma fresh_chain_transitions_witness :
  exists w' a0 rest,
    run_mcmc (101 / 100) 10 (PyInt 5) (fresh_world []) = (Ok tt, w') /\
    chain (self w') = Some (a0 :: rest) /\
    101 / 100 <= a0 <= 10 /\
    repeats_or (proposal (np_random (fresh_world []))) a0 rest /\
    Forall (fun y => y = a0 \/ 1 <= y <= 10) rest.
Proof.
  apply (fresh_chain_transitions (fresh_world []) (101 / 100) 10 5);
    [lra | lra | lia | exact generator_unit_variates_half | reflexivity].
Defined.




(** * Further properties of the code *)

(** ** Validation *)

Lemma positive_int_check (ntrials : pynum) :
  positive_int ntrials -> py_gt0 ntrials && py_isinstance_int ntrials = true.
Proof.
  intros (z & -> & Hz). unfold py_gt0. simpl.
  rewrite Rltb_true by (now apply IZR_lt). reflexivity.
Qed.

Lemma check_inputs_order a_min a_max ntrials w :
  1 < a_min -> a_max <= a_min ->
  _check_inputs a_min a_max ntrials w = (Raise (AssertionError EmptyString), w).
Proof.
  intros H1 H2. unfold _check_inputs, bind, py_assert.
  rewrite (Rltb_true _ _ H1). unfold ret at 1.
  rewrite (Rltb_false _ _ H2). reflexivity.
Qed.

Lemma check_inputs_ntrials a_min a_max ntrials w :
  1 < a_min -> a_min < a_max -> ~ positive_int ntrials ->
  _check_inputs a_min a_max ntrials w = (Raise (AssertionError ntrails_msg), w).
Proof.
  intros H1 H2 H3. unfold _check_inputs, bind, py_assert.
  rewrite (Rltb_true _ _ H1). unfold ret at 1.
  rewrite (Rltb_true _ _ H2). unfold ret at 1.
  rewrite (not_positive_int_check _ H3). reflexivity.
Qed.

Ltac raised_by_check lem :=
  split;
  [ unfold uniformly_sample_space, bind at 1; now rewrite lem
  | unfold run_mcmc, bind at 1; now rewrite lem ].

(** X1: for an int or float count, invalid arguments make both sampling
    operations raise an [AssertionError] with the message of the first
    violated condition in the order [a_min > 1], [a_min < a_max], positive
    integer count, and leave the world as it was.  On valid arguments the
    check passes and the count, being non-zero, is stored in [self.ntrails]:
    the fallback [ntrials = self.ntrails] is not taken. *)
Theorem sampling_operations_error_table
    (w : world) (a_min a_max : R) (ntrials : pynum) :
  (a_min <= 1 ->
   uniformly_sample_space a_min a_max ntrials w =
     (Raise (AssertionError normalization_msg), w) /\
   run_mcmc a_min a_max ntrials w =
     (Raise (AssertionError normalization_msg), w)) /\
  (1 < a_min -> a_max <= a_min ->
   uniformly_sample_space a_min a_max ntrials w =
     (Raise (AssertionError EmptyString), w) /\
   run_mcmc a_min a_max ntrials w = (Raise (AssertionError EmptyString), w)) /\
  (1 < a_min -> a_min < a_max -> ~ positive_int ntrials ->
   uniformly_sample_space a_min a_max ntrials w =
     (Raise (AssertionError ntrails_msg), w) /\
   run_mcmc a_min a_max ntrials w = (Raise (AssertionError ntrails_msg), w)) /\
  (1 < a_min -> a_min < a_max -> positive_int ntrials ->
   _check_inputs a_min a_max ntrials w = (Ok tt, w) /\
   default_ntrials ntrials w =
     (Ok ntrials,
      {| self := set_ntrails ntrials (self w); np_random := np_random w |})).
Proof.
  split; [| split; [| split]].
  - intros H. raised_by_check check_inputs_a_min.
  - intros H1 H2. raised_by_check check_inputs_order.
  - intros H1 H2 H3. raised_by_check check_inputs_ntrials.
  - intros H1 H2 (z & -> & Hz). split.
    + now apply check_inputs_ok.
    + now apply default_ntrials_int.
Qed.

Lemma float_count_is_not_a_positive_int (x : R) : ~ positive_int (PyFloat x).
Proof. intros (z & Hz & _). discriminate. Qed.

Lemma sampling_operations_error_table_witness :
  (uniformly_sample_space 5 2 (PyInt 10) (fresh_world []) =
     (Raise (AssertionError EmptyString), fresh_world []) /\
   run_mcmc 5 2 (PyInt 10) (fresh_world []) =
     (Raise (AssertionError EmptyString), fresh_world [])) /\
  (uniformly_sample_space 2 5 (PyFloat 10) (fresh_world []) =
     (Raise (AssertionError ntrails_msg), fresh_world []) /\
   run_mcmc 2 5 (PyFloat 10) (fresh_world []) =
     (Raise (AssertionError ntrails_msg), fresh_world [])) /\
  (_check_inputs 2 5 (PyInt 10) (fresh_world []) = (Ok tt, fresh_world []) /\
   default_ntrials (PyInt 10) (fresh_world []) =
     (Ok (PyInt 10),
      {| self := set_ntrails (PyInt 10) (self (fresh_world []));
         np_random := np_random (fresh_world []) |})).
Proof.
  split; [| split].
  - apply (sampling_operations_error_table (fresh_world []) 5 2 (PyInt 10)); lra.
  - apply (sampling_operations_error_table (fresh_world []) 2 5 (PyFloat 10));
      [lra | lra | apply float_count_is_not_a_positive_int].
  - apply (sampling_operations_error_table (fresh_world []) 2 5 (PyInt 10));
      [lra | lra | exists 10%Z; split; [reflexivity | lia]].
Defined.

(** ** What a successful call touches *)

Lemma mh_trial_consumed s a_current prob_a_current g :
  consumed (snd (mh_trial s a_current prob_a_current g)) = S (S (consumed g)).
Proof. now rewrite mh_trial_generator. Qed.

Lemma mh_while_consumed s limit trial_num a_current prob_a_current lst g :
  consumed (snd (mh_while s limit trial_num a_current prob_a_current lst g)) =
  (consumed g + 2 * Z.to_nat (py_floor limit + 1 - trial_num))%nat.
Proof.
  funelim (mh_while s limit trial_num a_current prob_a_current lst g).
  - match goal with IH : consumed _ = _ |- _ => rewrite IH end.
    rewrite mh_trial_consumed.
    pose proof guard as Hle. rewrite py_int_le_floor in Hle.
    apply Z.leb_le in Hle. lia.
  - pose proof guard as Hgt. rewrite py_int_le_floor in Hgt.
    apply Z.leb_gt in Hgt. simpl. lia.
Qed.

Lemma mh_while_variates s limit trial_num a_current prob_a_current lst g :
  variates (snd (mh_while s limit trial_num a_current prob_a_current lst g)) =
  variates g.
Proof.
  destruct (mh_while_appends s limit trial_num a_current prob_a_current lst g)
    as (_ & _ & H & _). exact H.
Qed.

(** X2: a successful [run_mcmc] assigns [chain] and [ntrails] and nothing
    else: the observations, the grid, its posteriors and the attribute
    [ntrials] that [__init__] set stay as they were.  It draws exactly
    [1 + 2 n] variates from the generator: the seed, then a proposal and an
    acceptance variate per trial. *)
Theorem run_mcmc_frame (w : world) (a_min a_max : R) (n : Z) :
  1 < a_min -> a_min < a_max -> (0 < n)%Z ->
  exists w',
    run_mcmc a_min a_max (PyInt n) w = (Ok tt, w') /\
    data (self w') = data (self w) /\
    nsamples (self w') = nsamples (self w) /\
    ntrials (self w') = ntrials (self w) /\
    a_array (self w') = a_array (self w) /\
    posterior (self w') = posterior (self w) /\
    ntrails (self w') = Some (PyInt n) /\
    variates (np_random w') = variates (np_random w) /\
    consumed (np_random w') =
      (consumed (np_random w) + 1 + 2 * Z.to_nat n)%nat.
Proof.
  intros H1 H2 Hn. rewrite run_mcmc_valid by assumption. cbv zeta.
  eexists. split; [reflexivity |]. cbn [self np_random].
  repeat (split; [reflexivity |]).
  split.
  - now rewrite mh_while_variates.
  - rewrite mh_while_consumed. cbn [py_floor np_random_uniform random_sample snd consumed].
    lia.
Qed.

Lemma run_mcmc_frame_witness :
  exists w',
    run_mcmc 2 3 (PyInt 4) (resumed_world []) = (Ok tt, w') /\
    data (self w') = data (self (resumed_world [])) /\
    nsamples (self w') = nsamples (self (resumed_world [])) /\
    ntrials (self w') = ntrials (self (resumed_world [])) /\
    a_array (self w') = a_array (self (resumed_world [])) /\
    posterior (self w') = posterior (self (resumed_world [])) /\
    ntrails (self w') = Some (PyInt 4) /\
    variates (np_random w') = variates (np_random (resumed_world [])) /\
    consumed (np_random w') = 9%nat.
Proof.
  apply (run_mcmc_frame (resumed_world []) 2 3 4); [lra | lra | lia].
Defined.

(** X3: [uniformly_sample_space] overwrites the grid.  A second successful
    call leaves exactly the world a single call with the second arguments
    would have left; the chain, the observations and the generator are not
    touched by either call. *)
Theorem uniformly_sample_space_overwrites
    (w : world) (a_min a_max a_min' a_max' : R) (n n' : Z) :
  1 < a_min -> a_min < a_max -> (0 < n)%Z ->
  1 < a_min' -> a_min' < a_max' -> (0 < n')%Z ->
  exists w1 w2,
    uniformly_sample_space a_min a_max (PyInt n) w = (Ok tt, w1) /\
    uniformly_sample_space a_min' a_max' (PyInt n') w1 = (Ok tt, w2) /\
    uniformly_sample_space a_min' a_max' (PyInt n') w = (Ok tt, w2) /\
    chain (self w2) = chain (self w) /\
    data (self w2) = data (self w) /\
    ntrials (self w2) = ntrials (self w) /\
    np_random w2 = np_random w.
Proof.
  intros H1 H2 Hn H1' H2' Hn'.
  rewrite !uniformly_sample_space_valid by assumption. cbv zeta.
  eexists. eexists. split; [reflexivity |].
  rewrite uniformly_sample_space_valid by assumption. cbv zeta.
  split; [reflexivity |]. repeat split; reflexivity.
Qed.

Lemma uniformly_sample_space_overwrites_witness :
  exists w1 w2,
    uniformly_sample_space 2 3 (PyInt 4) (resumed_world []) = (Ok tt, w1) /\
    uniformly_sample_space 4 9 (PyInt 7) w1 = (Ok tt, w2) /\
    uniformly_sample_space 4 9 (PyInt 7) (resumed_world []) = (Ok tt, w2) /\
    chain (self w2) = chain (self (resumed_world [])) /\
    data (self w2) = data (self (resumed_world [])) /\
    ntrials (self w2) = ntrials (self (resumed_world [])) /\
    np_random w2 = np_random (resumed_world []).
Proof.
  apply (uniformly_sample_space_overwrites (resumed_world []) 2 3 4 9 4 7);
    (lra || lia).
Defined.

(** X4: every candidate of the stored grid lies in [[a_min, a_max]], hence
    above 1, where the normalization of the posterior is defined. *)
Theorem grid_candidates_in_range (w : world) (a_min a_max : R) (n : Z) :
  1 < a_min -> a_min < a_max -> (0 < n)%Z ->
  exists w' cs,
    uniformly_sample_space a_min a_max (PyInt n) w = (Ok tt, w') /\
    a_array (self w') = Some cs /\
    Forall (fun c => a_min <= c <= a_max) cs.
Proof.
  intros H1 H2 Hn. rewrite uniformly_sample_space_valid by assumption.
  cbv zeta. eexists. eexists. split; [reflexivity |]. split; [reflexivity |].
  apply Forall_forall. intros c Hin.
  destruct (In_nth _ _ 0 Hin) as (i & Hi & <-).
  rewrite linspace_values_length in Hi by lia.
  rewrite linspace_values_nth by lia.
  destruct (Z.eq_dec n 1) as [-> | Hne].
  - replace i with 0%nat by (simpl in Hi; lia). simpl. lra.
  - assert (0 < IZR (n - 1)) as Hdiv by (apply IZR_lt; lia).
    assert (0 <= INR i) as Hi0 by apply pos_INR.
    assert (INR i <= IZR (n - 1)) as Hi1.
    { rewrite INR_IZR_INZ. apply IZR_le. lia. }
    assert (0 < (a_max - a_min) / IZR (n - 1)) as Hstep
      by (apply Rdiv_lt_0_compat; lra).
    assert ((a_max - a_min) / IZR (n - 1) * IZR (n - 1) = a_max - a_min) as E
      by (field; lra).
    split; nra.
Qed.

Lemma grid_candidates_in_range_witness :
  exists w' cs,
    uniformly_sample_space (101 / 100) 7 (PyInt 1000) (fresh_world []) = (Ok tt, w') /\
    a_array (self w') = Some cs /\
    Forall (fun c => 101 / 100 <= c <= 7) cs.
Proof.
  apply (grid_candidates_in_range (fresh_world []) (101 / 100) 7 1000);
    (lra || lia).
Defined.

(** X5: on an estimator that holds a non-empty chain, [run_mcmc] only
    appends: the chain afterwards is the old chain, unchanged, followed by
    exactly [n] new entries, and no new entry is below 1. *)
Theorem resumed_run_only_appends
    (w : world) (a_min a_max : R) (n : Z) (c : list R) :
  1 < a_min -> a_min < a_max -> (0 < n)%Z ->
  unit_variates (np_random w) -> chain (self w) = Some c -> c <> [] ->
  exists w' ext,
    run_mcmc a_min a_max (PyInt n) w = (Ok tt, w') /\
    chain (self w') = Some (c ++ ext) /\
    length ext = Z.to_nat n /\
    Forall (fun y => 1 <= y) ext.
Proof.
  intros H1 H2 Hn Hg Hc Hne.
  rewrite run_mcmc_valid by assumption. cbv zeta. rewrite Hc.
  rewrite py_or_nonempty by assumption.
  set (a0 := fst (np_random_uniform a_min a_max (np_random w))).
  set (g1 := snd (np_random_uniform a_min a_max (np_random w))).
  set (s1 := set_ntrails (PyInt n) (self w)).
  destruct (mh_while_appends s1 (PyInt n) 1 a0 (calculate_posterior s1 a0) c g1)
    as (ext & Hfst & _ & Hrep).
  pose proof (mh_while_length s1 (PyInt n) 1 a0 (calculate_posterior s1 a0) c g1)
    as Hlen.
  rewrite Hfst, length_app in Hlen. cbn [py_floor] in Hlen.
  pose proof (seed_in_range a_min a_max (np_random w) H2 Hg) as Hseed.
  fold a0 in Hseed.
  eexists. exists ext. split; [reflexivity |]. cbn [self chain set_chain].
  split; [now rewrite Hfst |]. split; [lia |].
  apply Forall_impl with (P := fun y => y = a0 \/ 1 <= y < 10).
  { intros y [-> | Hy]; lra. }
  apply (repeats_or_Forall (proposal (np_random w)) _ a0 a0); [| now left |].
  - intros y. now apply proposal_in_range.
  - eapply repeats_or_variates; [| exact Hrep]. reflexivity.
Qed.

Lemma resumed_run_only_appends_witness :
  exists w' ext,
    run_mcmc 2 3 (PyInt 4) (resumed_world []) = (Ok tt, w') /\
    chain (self w') = Some ([3; 5] ++ ext) /\
    length ext = 4%nat /\
    Forall (fun y => 1 <= y) ext.
Proof.
  apply (resumed_run_only_appends (resumed_world []) 2 3 4 [3; 5]);
    [lra | lra | lia | exact generator_unit_variates_half | reflexivity
    | discriminate].
Defined.

(** ** More on the posterior *)

Lemma posterior_spec_closed_form (a : R) (xs : list R) :
  posterior_spec a xs =
  N a ^ length xs *
  Rpower a (- fold_right Rplus 0 (map (fun x => x * x) xs) / 2).
Proof.
  unfold posterior_spec. induction xs as [| x xs IH].
  - simpl. unfold Rdiv, Rpower. rewrite Ropp_0, !Rmult_0_l, exp_0. ring.
  - cbn [product_over length map fold_right pow]. rewrite IH.
    unfold per_point_factor.
    replace (- (x * x + fold_right Rplus 0 (map (fun x0 => x0 * x0) xs)) / 2)
      with (- (x * x) / 2 + - fold_right Rplus 0 (map (fun x0 => x0 * x0) xs) / 2)
      by lra.
    rewrite Rpower_plus. ring.
Qed.

(** X6: the posterior depends on the observations through their number and
    the sum of their squares only: for [n] observations it is
    [N(a)^n * a^(-(x1^2 + ... + xn^2) / 2)] with
    [N(a) = sqrt(ln(a) / (2 pi))]. *)
Theorem calculate_posterior_closed_form (s : CalculateE) (a : R) :
  1 <= a ->
  calculate_posterior s a =
  sqrt (ln a / (2 * PI)) ^ length (data s) *
  Rpower a (- fold_right Rplus 0 (map (fun x => x * x) (data s)) / 2).
Proof.
  intros _. rewrite calculate_posterior_spec. apply posterior_spec_closed_form.
Qed.

Lemma calculate_posterior_closed_form_witness :
  calculate_posterior (new_CalculateE [1; 2]) 3 =
  sqrt (ln 3 / (2 * PI)) ^ 2 * Rpower 3 (- (1 * 1 + (2 * 2 + 0)) / 2).
Proof.
  apply (calculate_posterior_closed_form (new_CalculateE [1; 2]) 3). lra.
Defined.

Lemma product_over_Permutation (f : R -> R) (xs ys : list R) :
  Permutation xs ys -> product_over f xs = product_over f ys.
Proof.
  induction 1 as [| x l l' _ IH | x y l | l l' l'' _ IH1 _ IH2]; simpl.
  - reflexivity.
  - now rewrite IH.
  - ring.
  - now rewrite IH1.
Qed.

Lemma product_over_map (f g : R -> R) (xs : list R) :
  product_over f (map g xs) = product_over (fun x => f (g x)) xs.
Proof. induction xs as [| x xs IH]; simpl; [reflexivity | now rewrite IH]. Qed.

Lemma product_over_ext (f g : R -> R) (xs : list R) :
  (forall x, f x = g x) -> product_over f xs = product_over g xs.
Proof.
  intros E. induction xs as [| x xs IH]; simpl; [reflexivity | now rewrite E, IH].
Qed.

(** X7: the posterior does not change when the observations are reordered
    or when observations change sign. *)
Theorem calculate_posterior_invariant (s s' : CalculateE) (a : R) :
  1 <= a ->
  Permutation (data s) (data s') \/ data s' = map Ropp (data s) ->
  calculate_posterior s' a = calculate_posterior s a.
Proof.
  intros _ [Hperm | Hneg]; rewrite !calculate_posterior_spec;
    unfold posterior_spec.
  - symmetry. now apply product_over_Permutation.
  - rewrite Hneg, product_over_map. apply product_over_ext.
    intros x. unfold per_point_factor. do 3 f_equal. ring.
Qed.

Lemma calculate_posterior_invariant_witness :
  calculate_posterior (new_CalculateE [2; 1]) 3 =
    calculate_posterior (new_CalculateE [1; 2]) 3 /\
  calculate_posterior (new_CalculateE [-(1); -(2)]) 3 =
    calculate_posterior (new_CalculateE [1; 2]) 3.
Proof.
  split.
  - apply (calculate_posterior_invariant
             (new_CalculateE [1; 2]) (new_CalculateE [2; 1]) 3); [lra |].
    left. apply perm_swap.
  - apply (calculate_posterior_invariant
             (new_CalculateE [1; 2]) (new_CalculateE [-(1); -(2)]) 3); [lra |].
    right. reflexivity.
Defined.

(** ** The sampler at its edges *)

Lemma calculate_posterior_no_data (s : CalculateE) (a : R) :
  data s = [] -> calculate_posterior s a = 1.
Proof. intros E. rewrite calculate_posterior_spec, E. reflexivity. Qed.

Lemma mh_trial_no_data s a_current g :
  data s = [] -> unit_variates g ->
  fst (mh_trial s a_current 1 g) = (1 + (10 - 1) * variates g (consumed g), 1).
Proof.
  intros Hdata Hg. rewrite mh_trial_unfold. cbv zeta.
  rewrite calculate_posterior_no_data by assumption.
  unfold np_true_divide. rewrite Reqb0_false by lra.
  unfold py_min, np_lt. rewrite Rltb_false by lra. unfold np_le.
  rewrite Rleb_true; [reflexivity |].
  destruct (Hg (S (consumed g))). lra.
Qed.

Lemma mh_while_no_data s n (m : nat) :
  data s = [] ->
  forall trial_num a_current lst g,
    unit_variates g ->
    Z.to_nat (n + 1 - trial_num) = m ->
    fst (mh_while s (PyInt n) trial_num a_current 1 lst g) =
    lst ++ map (fun k => 1 + (10 - 1) * variates g (consumed g + 2 * k))
             (seq 0 m).
Proof.
  intros Hdata. induction m as [| m IH]; intros t a lst g Hg Hm.
  - rewrite mh_while_int_exit by lia. simpl. now rewrite app_nil_r.
  - rewrite mh_while_int_iter by lia.
    rewrite mh_trial_generator, mh_trial_no_data by assumption. cbn [fst snd].
    rewrite IH; [| exact Hg | lia].
    rewrite <- app_assoc. f_equal. cbn [seq map app consumed variates].
    f_equal; [do 3 f_equal; lia |].
    rewrite <- seq_shift, map_map. apply map_ext. intros k.
    do 3 f_equal. lia.
Qed.

(** X8: with an empty observation set the posterior is 1 everywhere, every
    proposal is accepted, and a fresh chain is the seed followed by the [n]
    proposals in the order they were drawn. *)
Theorem no_data_chain_is_the_proposals (w : world) (a_min a_max : R) (n : Z) :
  1 < a_min -> a_min < a_max -> (0 < n)%Z ->
  unit_variates (np_random w) ->
  data (self w) = [] -> chain (self w) = None ->
  exists w',
    run_mcmc a_min a_max (PyInt n) w = (Ok tt, w') /\
    chain (self w') =
      Some (fst (np_random_uniform a_min a_max (np_random w)) ::
            map (fun k => 1 + (10 - 1) *
                          variates (np_random w)
                            (consumed (np_random w) + 1 + 2 * k))
              (seq 0 (Z.to_nat n))).
Proof.
  intros H1 H2 Hn Hg Hdata Hnone.
  rewrite run_mcmc_valid by assumption. cbv zeta. rewrite Hnone.
  eexists. split; [reflexivity |]. cbn [self chain set_chain py_or].
  rewrite calculate_posterior_no_data by exact Hdata.
  rewrite (mh_while_no_data _ n (Z.to_nat n)); try exact Hdata;
    [| exact Hg | lia].
  cbn [app np_random_uniform random_sample fst snd consumed variates].
  do 2 f_equal. apply map_ext. intros k. do 3 f_equal. lia.
Qed.

Lemma no_data_chain_is_the_proposals_witness :
  exists w',
    run_mcmc 2 3 (PyInt 2)
      {| self := new_CalculateE []; np_random := generator [] |} = (Ok tt, w') /\
    chain (self w') =
      Some (fst (np_random_uniform 2 3 (generator [])) ::
            map (fun k => 1 + (10 - 1) *
                          variates (generator []) (consumed (generator []) + 1 + 2 * k))
              (seq 0 (Z.to_nat 2))).
Proof.
  apply (no_data_chain_is_the_proposals
           {| self := new_CalculateE []; np_random := generator [] |} 2 3 2);
    [lra | lra | lia | exact generator_unit_variates_half | reflexivity
    | reflexivity].
Defined.



(** ** plot *)

(** X10: [plot(mcmc=True)] on an estimator whose chain is [None], as after
    [restart_chain], raises [TypeError] from [len(self.chain)]: the figure
    has been created and no drawing call has been made.  The estimator
    [__init__] builds is in the same position. *)
Theorem plot_chain_after_restart_raises
    (mpl : mpl_call -> option exn) (w : world) (xs : list R) :
  mpl (Plt_subplots 1 1) = None ->
  (exists w0,
     restart_chain w = (Ok tt, w0) /\
     plot mpl (self w0) PyTrue [] = (Raise TypeError, [Plt_subplots 1 1])) /\
  plot mpl (new_CalculateE xs) PyTrue [] = (Raise TypeError, [Plt_subplots 1 1]).
Proof.
  intros Hsub. split.
  - eexists. split; [reflexivity |].
    unfold plot, tbind, call, tret. rewrite Hsub. reflexivity.
  - unfold plot, tbind, call, tret. rewrite Hsub. reflexivity.
Qed.

Lemma plot_chain_after_restart_raises_witness :
  (exists w0,
     restart_chain (resumed_world []) = (Ok tt, w0) /\
     plot mpl_returns (self w0) PyTrue [] = (Raise TypeError, [Plt_subplots 1 1])) /\
  plot mpl_returns (new_CalculateE [0]) PyTrue [] =
    (Raise TypeError, [Plt_subplots 1 1]).
Proof.
  apply (plot_chain_after_restart_raises mpl_returns (resumed_world []) [0]).
  reflexivity.
Defined.

(** X11: after a successful [uniformly_sample_space] with [n] points,
    [plot(mcmc=False)] creates the figure and then hands matplotlib the
    stored grid and its posteriors, [n] values each, in its first drawing
    call; this holds whatever matplotlib does with that call and the later
    ones. *)
Theorem plot_grid_after_sampling
    (mpl : mpl_call -> option exn) (w : world) (a_min a_max : R) (n : Z) :
  1 < a_min -> a_min < a_max -> (0 < n)%Z ->
  mpl (Plt_subplots 1 1) = None ->
  exists w' cs ps r rest,
    uniformly_sample_space a_min a_max (PyInt n) w = (Ok tt, w') /\
    a_array (self w') = Some cs /\
    posterior (self w') = Some ps /\
    plot mpl (self w') PyFalse [] =
      (r, Plt_subplots 1 1 :: Ax_plot (Some cs) (Some ps) "Posterior" :: rest) /\
    length cs = Z.to_nat n /\ length ps = Z.to_nat n.
Proof.
  intros H1 H2 Hn Hsub.
  rewrite uniformly_sample_space_valid by assumption. cbv zeta.
  eexists. eexists. eexists.
  cbn [self a_array posterior set_posterior set_a_array].
  assert (forall cs ps,
            exists r rest,
              plot mpl
                {| nsamples := nsamples (self w); ntrials := ntrials (self w);
                   ntrails := Some (PyInt n); data := data (self w);
                   a_array := Some cs; posterior := Some ps;
                   chain := chain (self w) |} PyFalse [] =
              (r, Plt_subplots 1 1 :: Ax_plot (Some cs) (Some ps) "Posterior"
                    :: rest)) as Hplot.
  { intros cs ps. unfold plot, tbind, call, tret.
    cbn [a_array posterior chain app]. rewrite Hsub.
    repeat (match goal with
            | |- context [mpl ?c] => destruct (mpl c)
            end; cbn [app]);
      eexists; eexists; reflexivity. }
  destruct (Hplot (linspace_values a_min a_max n)
              (map (calculate_posterior (self w)) (linspace_values a_min a_max n)))
    as (r & rest & Hr).
  exists r, rest. split; [reflexivity |]. split; [reflexivity |].
  split; [reflexivity |]. split; [exact Hr |].
  rewrite length_map, linspace_values_length by lia. split; reflexivity.
Qed.

Lemma plot_grid_after_sampling_witness :
  exists w' cs ps r rest,
    uniformly_sample_space 2 5 (PyInt 3) (fresh_world []) = (Ok tt, w') /\
    a_array (self w') = Some cs /\
    posterior (self w') = Some ps /\
    plot mpl_returns (self w') PyFalse [] =
      (r, Plt_subplots 1 1 :: Ax_plot (Some cs) (Some ps) "Posterior" :: rest) /\
    length cs = 3%nat /\ length ps = 3%nat.
Proof.
  apply (plot_grid_after_sampling mpl_returns (fresh_world []) 2 5 3);
    [lra | lra | lia | reflexivity].
Defined.

(** ** The acceptance rule below the current posterior *)

(** X12: in a trial whose proposal has a smaller posterior than a positive
    current one, the proposal is accepted exactly when the variate [u] is at
    most the ratio [p_trial / p_current]; otherwise the current state is
    kept.  Two variates are consumed either way. *)
Theorem less_probable_proposal_accepted_by_ratio
    (s : CalculateE) (a_current prob_a_current : R) (g : RandomState) :
  0 < prob_a_current ->
  calculate_posterior s (fst (np_random_uniform 1 10 g)) < prob_a_current ->
  let a_trial := fst (np_random_uniform 1 10 g) in
  let prob_a_trial := calculate_posterior s a_trial in
  let u := variates g (S (consumed g)) in
  (u <= prob_a_trial / prob_a_current ->
   fst (mh_trial s a_current prob_a_current g) = (a_trial, prob_a_trial)) /\
  (prob_a_trial / prob_a_current < u ->
   fst (mh_trial s a_current prob_a_current g) = (a_current, prob_a_current)) /\
  consumed (snd (mh_trial s a_current prob_a_current g)) = S (S (consumed g)).
Proof.
  intros Hpos Hlt a_trial prob_a_trial u.
  assert (prob_a_trial / prob_a_current < 1) as Hratio.
  { apply Rmult_lt_reg_r with prob_a_current; [exact Hpos |].
    unfold Rdiv. rewrite Rmult_assoc, Rinv_l by lra.
    fold a_trial prob_a_trial in Hlt. lra. }
  assert (py_min (Fin 1) (np_true_divide prob_a_trial prob_a_current) =
          Fin (prob_a_trial / prob_a_current)) as Hmin.
  { unfold np_true_divide. rewrite Reqb0_false by lra.
    unfold py_min, np_lt. now rewrite Rltb_true. }
  assert (fst (mh_trial s a_current prob_a_current g) =
          if Rleb u (prob_a_trial / prob_a_current)
          then (a_trial, prob_a_trial) else (a_current, prob_a_current)) as E.
  { rewrite mh_trial_unfold. cbv zeta.
    change (1 + (10 - 1) * variates g (consumed g)) with a_trial.
    fold prob_a_trial. rewrite Hmin. unfold np_le.
    replace (0 + (1 - 0) * variates g (S (consumed g))) with u
      by (unfold u; lra).
    destruct (Rleb u _); reflexivity. }
  split; [| split].
  - intros Hu. now rewrite E, Rleb_true.
  - intros Hu. now rewrite E, Rleb_false.
  - apply mh_trial_consumed.
Qed.

Lemma less_probable_proposal_accepted_by_ratio_witness :
  fst (mh_trial (new_CalculateE [0]) 2
         (calculate_posterior (new_CalculateE [0]) 2) (generator [0; 1 / 2])) =
  (2, calculate_posterior (new_CalculateE [0]) 2).
Proof.
  apply (less_probable_proposal_accepted_by_ratio (new_CalculateE [0]) 2
           (calculate_posterior (new_CalculateE [0]) 2) (generator [0; 1 / 2])).
  - apply calculate_posterior_pos. lra.
  - replace (fst (np_random_uniform 1 10 (generator [0; 1 / 2]))) with 1
      by (simpl; lra).
    rewrite calculate_posterior_at_1 by discriminate.
    apply calculate_posterior_pos. lra.
  - replace (fst (np_random_uniform 1 10 (generator [0; 1 / 2]))) with 1
      by (simpl; lra).
    rewrite calculate_posterior_at_1 by discriminate.
    unfold Rdiv. rewrite Rmult_0_l. simpl. lra.
Defined.
